(** * The palette shadow lookup texture of tom-lander

    A shallow embedding of [create_palette_texture.py]: the script that
    renders the 32-colour Picotron palette and its hand-written shadow
    table into a 32x8 RGB lookup texture and saves it as a PNG.

    The script is straight-line Python: two literals, a nested [for] loop
    that indexes them and calls [putpixel], then [img.save] and four
    [print]s.  The embedding keeps that shape.  Python integers are [Z],
    the palette is a [list] of channel triples, the shadow table is a
    [gmap] from [Z] keys to rows (it is a [dict] literal in the source),
    subscripting raises as Python's does, and the part of the script that
    touches the outside world runs in a small state-and-exception monad
    over a [World] holding the files and the standard output. *)

From Stdlib Require Import ZArith Lia.
From stdpp Require Import gmap strings list fin_maps pretty sorting.

Local Open Scope Z_scope.

(** ** Python values and exceptions *)

Module Py.

(** The exceptions the script can meet: a missing [dict] key, a sequence
    or pixel subscript out of range, a failed write, and an integer too
    large for the C type a library call converts it to. *)
Inductive exn : Set := KeyError | IndexError | OSError | OverflowError.

Inductive result (A : Type) : Type :=
| Ok (a : A)
| Raise (e : exn).
Arguments Ok {A} a.
Arguments Raise {A} e.

#[global] Instance exn_eq_dec : EqDecision exn.
Proof. solve_decision. Defined.
#[global] Instance result_eq_dec `{EqDecision A} : EqDecision (result A).
Proof. solve_decision. Defined.

Definition bind {A B} (m : result A) (k : A → result B) : result B :=
  match m with
  | Ok a => k a
  | Raise e => Raise e
  end.

#[global] Instance result_bind : MBind result := λ A B k m, bind m k.
#[global] Instance result_ret : MRet result := @Ok.

(** What is left of a result once the kind of exception is forgotten. *)
Definition value {A} (m : result A) : option A :=
  match m with
  | Ok a => Some a
  | Raise _ => None
  end.

(** [l[i]] on a Python sequence: a negative subscript counts from the
    end, and what is still out of range raises [IndexError]. *)
Definition getitem {A} (l : list A) (i : Z) : result A :=
  let j := if i <? 0 then i + Z.of_nat (length l) else i in
  if j <? 0 then Raise IndexError
  else match l !! Z.to_nat j with
       | Some a => Ok a
       | None => Raise IndexError
       end.

(** [d[k]] on a Python [dict]: a missing key raises [KeyError]. *)
Definition dict_getitem {V} (d : gmap Z V) (k : Z) : result V :=
  match d !! k with
  | Some v => Ok v
  | None => Raise KeyError
  end.

(** [range(n)] *)
Definition range (n : Z) : list Z := seqZ 0 n.

(** [for x in xs: body], the loop state threaded through the body; an
    exception in the body leaves the loop at once. *)
Fixpoint for_ {A S} (xs : list A) (body : A → S → result S) (s : S)
  : result S :=
  match xs with
  | [] => Ok s
  | x :: xs' => body x s ≫= for_ xs' body
  end.

End Py.

Import Py.

(** ** The imaging library, as far as the script uses it *)

(** An RGB colour, as the palette literal writes it: a tuple of three
    integers. *)
Definition rgb : Type := Z * Z * Z.

Definition black : rgb := (0, 0, 0).

(** A channel of an ['RGB'] image is one byte. *)
Definition is_channel (c : Z) : Prop := 0 ≤ c < 256.

Definition is_rgb8 (v : rgb) : Prop :=
  is_channel v.1.1 ∧ is_channel v.1.2 ∧ is_channel v.2.

Definition clip8 (c : Z) : Z :=
  if c <? 0 then 0 else if 255 <? c then 255 else c.

Definition clip_rgb (v : rgb) : rgb :=
  (clip8 v.1.1, clip8 v.1.2, clip8 v.2).

(** The library converts the channels of a colour to C integers before it
    clips them: the first to a [long long], the other two to an [int]. *)
Definition fits_int (c : Z) : Prop := - 2 ^ 31 ≤ c < 2 ^ 31.
Definition fits_long_long (c : Z) : Prop := - 2 ^ 63 ≤ c < 2 ^ 63.

Definition storable (v : rgb) : Prop :=
  fits_long_long v.1.1 ∧ fits_int v.1.2 ∧ fits_int v.2.

#[global] Instance storable_dec v : Decision (storable v).
Proof. unfold storable, fits_long_long, fits_int. apply _. Defined.

(** The pixel value stored for a colour: a channel that does not fit its
    C type raises [OverflowError], the others are clipped to a byte. *)
Definition getink (value : rgb) : result rgb :=
  if decide (storable value) then Ok (clip_rgb value)
  else Raise OverflowError.

(** An image: its mode, its size [(width, height)] and its pixel buffer in
    row-major order, the pixel at [(x, y)] at offset [y * width + x]. *)
Record Image : Type := mkImage {
  mode : string;
  size : Z * Z;
  pixels : list rgb
}.

(** [Image.new(mode, size)]: every pixel starts black. *)
Definition Image_new (mode : string) (size : Z * Z) : Image :=
  mkImage mode size (replicate (Z.to_nat (size.1 * size.2)) black).

(** The bands of a mode; ['RGB'] has three and no alpha. *)
Definition getbands (m : string) : list string :=
  if decide (m = "RGB") then ["R"; "G"; "B"]
  else if decide (m = "RGBA") then ["R"; "G"; "B"; "A"]
  else if decide (m = "L") then ["L"]
  else [].

(** The buffer offset of the pixel at [xy], or [IndexError] outside the
    image.  A negative coordinate counts from the far edge. *)
Definition offset (img : Image) (xy : Z * Z) : result nat :=
  let '(w, h) := size img in
  let x := if xy.1 <? 0 then w + xy.1 else xy.1 in
  let y := if xy.2 <? 0 then h + xy.2 else xy.2 in
  if (x <? 0) || (w <=? x) || (y <? 0) || (h <=? y) then Raise IndexError
  else Ok (Z.to_nat (y * w + x)).

(** [img.putpixel(xy, value)]: the image is changed in place, here the
    changed image is returned.  The position is checked first, then the
    colour is converted, and the channels are stored as bytes. *)
Definition putpixel (img : Image) (xy : Z * Z) (value : rgb) : result Image :=
  i ← offset img xy;
  ink ← getink value;
  Ok (mkImage (mode img) (size img) (<[i := ink]> (pixels img))).

(** [img.getpixel(xy)] *)
Definition getpixel (img : Image) (xy : Z * Z) : result rgb :=
  i ← offset img xy;
  match pixels img !! i with
  | Some v => Ok v
  | None => Raise IndexError
  end.

(** ** The world outside the script *)

(** What a file holds: a whole image, or what is left of a write that
    did not finish (an empty or cut-off file). *)
Inductive file : Type :=
| Complete (img : Image)
| Truncated.

(** The files, the lines printed, and what a save to a path will meet:
    [writable] tells whether it goes through to the end; where it does
    not, [opens] tells whether the file was opened for writing, and so
    created or emptied, before the failure (a disk that fills up) or not
    at all (a missing directory, a permission refused). *)
Record World : Type := mkWorld {
  files : gmap string file;
  writable : string → bool;
  stdout : list string;
  opens : string → bool
}.

Definition IO (A : Type) : Type := World → result A * World.

Definition io_bind {A B} (m : IO A) (k : A → IO B) : IO B :=
  λ w, match m w with
       | (Ok a, w') => k a w'
       | (Raise e, w') => (Raise e, w')
       end.

(** A computation that does not touch the world. *)
Definition lift {A} (m : result A) : IO A := λ w, (m, w).

#[global] Instance IO_bind : MBind IO := λ A B k m, io_bind m k.

(** [img.save(path)]: the encoder is outside the script.  The library
    opens the file for writing, which creates or empties it, and then
    encodes into it: the call ends with the whole image in the file, or
    raises with the file left cut off, or raises without having opened
    it. *)
Definition save (img : Image) (path : string) : IO unit :=
  λ w, if writable w path
       then (Ok tt, mkWorld (<[path := Complete img]> (files w))
                      (writable w) (stdout w) (opens w))
       else if opens w path
       then (Raise OSError, mkWorld (<[path := Truncated]> (files w))
                              (writable w) (stdout w) (opens w))
       else (Raise OSError, w).

(** [print(line)] *)
Definition print (line : string) : IO unit :=
  λ w, (Ok tt,
        mkWorld (files w) (writable w) (stdout w ++ [line]) (opens w)).

(** ** The script *)

(** Picotron 32-color palette *)
Definition palette_colors : list rgb := [
  (0x00, 0x00, 0x00);  (* 0 *)
  (0x1d, 0x2b, 0x53);  (* 1 *)
  (0x7e, 0x25, 0x53);  (* 2 *)
  (0x00, 0x87, 0x51);  (* 3 *)
  (0xab, 0x52, 0x36);  (* 4 *)
  (0x5f, 0x57, 0x4f);  (* 5 *)
  (0xc2, 0xc3, 0xc7);  (* 6 *)
  (0xff, 0xf1, 0xe8);  (* 7 *)
  (0xff, 0x00, 0x4d);  (* 8 *)
  (0xff, 0xa3, 0x00);  (* 9 *)
  (0xff, 0xec, 0x27);  (* 10 *)
  (0x00, 0xe4, 0x36);  (* 11 *)
  (0x29, 0xad, 0xff);  (* 12 *)
  (0x83, 0x76, 0x9c);  (* 13 *)
  (0xff, 0x77, 0xa8);  (* 14 *)
  (0xff, 0xcc, 0xaa);  (* 15 *)
  (0x1c, 0x5e, 0xac);  (* 16 *)
  (0x00, 0xa5, 0xa1);  (* 17 *)
  (0x75, 0x4e, 0x97);  (* 18 *)
  (0x12, 0x53, 0x59);  (* 19 *)
  (0x74, 0x2f, 0x29);  (* 20 *)
  (0x49, 0x2d, 0x38);  (* 21 *)
  (0xa2, 0x88, 0x79);  (* 22 *)
  (0xff, 0xac, 0xc5);  (* 23 *)
  (0xc3, 0x00, 0x4c);  (* 24 *)
  (0xeb, 0x6b, 0x00);  (* 25 *)
  (0x90, 0xec, 0x42);  (* 26 *)
  (0x00, 0xb2, 0x51);  (* 27 *)
  (0x64, 0xdf, 0xf6);  (* 28 *)
  (0xbd, 0x9a, 0xdf);  (* 29 *)
  (0xe4, 0x0d, 0xab);  (* 30 *)
  (0xff, 0x85, 0x6d)   (* 31 *)
].

(** Shadow level mappings (8 levels per color) *)
Definition shadow_levels : gmap Z (list Z) := list_to_map [
  (0, [0; 0; 0; 0; 0; 0; 0; 0]);
  (1, [1; 1; 1; 0; 0; 0; 0; 0]);
  (2, [2; 2; 21; 21; 1; 0; 0; 0]);
  (3, [3; 3; 19; 19; 1; 1; 0; 0]);
  (4, [4; 4; 20; 20; 21; 1; 0; 0]);
  (5, [5; 5; 21; 21; 1; 0; 0; 0]);
  (6, [6; 13; 13; 5; 5; 21; 1; 0]);
  (7, [7; 6; 6; 13; 5; 5; 1; 0]);
  (8, [8; 8; 24; 24; 2; 21; 1; 0]);
  (9, [9; 9; 25; 25; 4; 20; 21; 0]);
  (10, [10; 10; 9; 25; 4; 20; 1; 0]);
  (11, [11; 11; 27; 27; 3; 19; 1; 0]);
  (12, [12; 12; 16; 16; 1; 1; 0; 0]);
  (13, [13; 13; 5; 5; 21; 1; 0; 0]);
  (14, [14; 14; 8; 8; 24; 2; 1; 0]);
  (15, [15; 15; 4; 4; 20; 21; 1; 0]);
  (16, [16; 16; 1; 1; 0; 0; 0; 0]);
  (17, [17; 17; 19; 19; 1; 1; 0; 0]);
  (18, [18; 18; 2; 2; 21; 1; 0; 0]);
  (19, [19; 19; 1; 1; 0; 0; 0; 0]);
  (20, [20; 20; 21; 21; 1; 0; 0; 0]);
  (21, [21; 21; 1; 0; 0; 0; 0; 0]);
  (22, [22; 22; 5; 5; 21; 1; 0; 0]);
  (23, [23; 23; 14; 14; 8; 24; 2; 0]);
  (24, [24; 24; 2; 2; 21; 1; 0; 0]);
  (25, [25; 25; 4; 4; 20; 21; 1; 0]);
  (26, [26; 26; 11; 11; 27; 3; 19; 0]);
  (27, [27; 27; 3; 3; 19; 1; 0; 0]);
  (28, [28; 28; 12; 12; 16; 1; 0; 0]);
  (29, [29; 29; 13; 13; 5; 21; 1; 0]);
  (30, [30; 30; 24; 24; 2; 21; 1; 0]);
  (31, [31; 31; 8; 8; 24; 2; 1; 0])
].

Definition width : Z := 32.
Definition height : Z := 8.
Definition output_path : string := "assets/palette_shadow_lookup.png".

Section Script.

(** The two tables are literals of the script.  They are kept as
    variables of the section so that the script can also be run on a
    table that differs from the literal one. *)
Variable palette : list rgb.
Variable shadow : gmap Z (list Z).

(** The colour the loop body computes for one pixel: the two
    subscripts of lines 92 and 94. *)
Definition shadow_rgb (palette_idx shadow_level : Z) : result rgb :=
  row ← dict_getitem shadow palette_idx;
  shadow_idx ← getitem row shadow_level;
  getitem palette shadow_idx.

(** The body of the inner loop. *)
Definition fill_pixel (palette_idx shadow_level : Z) (img : Image)
  : result Image :=
  row ← dict_getitem shadow palette_idx;
  shadow_idx ← getitem row shadow_level;
  rgb ← getitem palette shadow_idx;
  putpixel img (palette_idx, shadow_level) rgb.

(** The fill loop:
    [for palette_idx in range(32): for shadow_level in range(8): ...] *)
Definition fill_pixels (img : Image) : result Image :=
  for_ (range 32) (λ palette_idx img,
    for_ (range 8) (λ shadow_level img,
      fill_pixel palette_idx shadow_level img) img) img.

(** The texture in memory, before it is saved. *)
Definition build : result Image :=
  fill_pixels (Image_new "RGB" (width, height)).

(** The same loop body run over the pixels in a given order. *)
Definition fill_in_order (order : list (Z * Z)) (img : Image)
  : result Image :=
  for_ order (λ xy img, fill_pixel xy.1 xy.2 img) img.

(** The whole script. *)
Definition create_palette_texture : IO unit :=
  img ← lift build;
  save img output_path;;
  print ("Created palette shadow lookup texture: " +:+ output_path);;
  print ("Size: " +:+ pretty width +:+ "x" +:+ pretty height
         +:+ " pixels");;
  print "Each column represents a palette color (0-31)";;
  print "Each row represents a shadow level (0=brightest, 7=darkest)".

End Script.

(** The script as it is run: on its own two literals. *)
Definition main : IO unit :=
  create_palette_texture palette_colors shadow_levels.

(** The pixels in the order the nested loop visits them. *)
Definition loop_order : list (Z * Z) :=
  p ← range 32; s ← range 8; [(p, s)].

(** ** Predicates of the statements *)

(** [xy] names a pixel of an image of the given size, with coordinates
    that are not negative (the loop only produces such). *)
Definition inside (sz : Z * Z) (xy : Z * Z) : Prop :=
  (0 ≤ xy.1 < sz.1) ∧ (0 ≤ xy.2 < sz.2).

(** Where the pixel at [xy] lies in the buffer of an image of size [sz]. *)
Definition index (sz : Z * Z) (xy : Z * Z) : nat :=
  Z.to_nat (xy.2 * sz.1 + xy.1).

(** The buffer of an image has one entry per pixel. *)
Definition wf_image (img : Image) : Prop :=
  0 ≤ (size img).1 ∧ 0 ≤ (size img).2 ∧
  length (pixels img) = Z.to_nat ((size img).1 * (size img).2).

(** The data-model invariants of the two tables. *)
Definition valid_palette (palette : list rgb) : Prop :=
  length palette = 32%nat ∧ Forall is_rgb8 palette.

Definition valid_row (row : list Z) : Prop :=
  length row = 8%nat ∧ Forall (λ i, 0 ≤ i < 32) row.

Definition valid_shadow (shadow : gmap Z (list Z)) : Prop :=
  dom shadow = list_to_set (range 32) ∧
  map_Forall (λ _ row, valid_row row) shadow.

(** Every row the loop reads is present. *)
Definition rows_present (shadow : gmap Z (list Z)) : Prop :=
  Forall (λ p, is_Some (shadow !! p)) (range 32).

(** [shadow[p][s]], the entry the loop body reads at line 92. *)
Definition shadow_entry (shadow : gmap Z (list Z)) (p s : Z) : result Z :=
  row ← dict_getitem shadow p; getitem row s.

(** What the loop body stores for a pixel: the colour looked up, converted
    to a pixel value. *)
Definition shadow_ink (palette : list rgb) (shadow : gmap Z (list Z))
    (p s : Z) : result rgb :=
  shadow_rgb palette shadow p s ≫= getink.

(** The lines the script prints once the file is saved. *)
Definition confirmation : list string := [
  "Created palette shadow lookup texture: assets/palette_shadow_lookup.png";
  "Size: 32x8 pixels";
  "Each column represents a palette color (0-31)";
  "Each row represents a shadow level (0=brightest, 7=darkest)"
].

(** The table with the entry of colour [p] at level [s] replaced. *)
Definition set_entry (shadow : gmap Z (list Z)) (p s v : Z)
  : gmap Z (list Z) :=
  match shadow !! p with
  | Some row => <[p := <[Z.to_nat s := v]> row]> shadow
  | None => shadow
  end.

(** A world with no files yet, where every path can be written. *)
Definition fresh_world : World := mkWorld ∅ (λ _, true) [] (λ _, true).

(** A world where the [assets] directory is missing. *)
Definition readonly_world : World := mkWorld ∅ (λ _, false) [] (λ _, false).

(** A world that already holds an older, empty texture and some output. *)
Definition used_world : World :=
  mkWorld {[ output_path := Complete (Image_new "RGB" (0, 0)) ]} (λ _, true)
          ["earlier output"] (λ _, true).

(** The same world on a disk that is full: the file can be opened, the
    write into it fails. *)
Definition full_disk_world : World :=
  mkWorld {[ output_path := Complete (Image_new "RGB" (0, 0)) ]} (λ _, false)
          ["earlier output"] (λ _, true).

#[global] Instance is_rgb8_dec v : Decision (is_rgb8 v).
Proof. unfold is_rgb8, is_channel. apply _. Defined.
#[global] Instance valid_row_dec row : Decision (valid_row row).
Proof. unfold valid_row. apply _. Defined.
#[global] Instance valid_palette_dec palette : Decision (valid_palette palette).
Proof. unfold valid_palette. apply _. Defined.
#[global] Instance valid_shadow_dec shadow : Decision (valid_shadow shadow).
Proof. unfold valid_shadow. apply _. Defined.

(** Closes a decidable goal about the literals by evaluation. *)
Ltac by_evaluation :=
  apply (bool_decide_unpack _); vm_compute; exact I.

(** The order in which the nested loop reaches the pixels: column by
    column, and within a column from level 0 down. *)
Definition precedes (xy xy' : Z * Z) : Prop :=
  xy.1 < xy'.1 ∨ (xy.1 = xy'.1 ∧ xy.2 < xy'.2).

#[global] Instance precedes_dec : RelDecision precedes.
Proof. intros xy xy'. unfold precedes. apply _. Defined.

(** The lookup of a pixel succeeds. *)
Definition resolves (palette : list rgb) (shadow : gmap Z (list Z))
    (xy : Z * Z) : Prop :=
  ∃ v, shadow_rgb palette shadow xy.1 xy.2 = Ok v.

(** The loop body fills a pixel: its lookup and its conversion succeed. *)
Definition fills (palette : list rgb) (shadow : gmap Z (list Z))
    (xy : Z * Z) : Prop :=
  ∃ ink, shadow_ink palette shadow xy.1 xy.2 = Ok ink.

#[global] Instance resolves_dec palette shadow xy :
  Decision (resolves palette shadow xy).
Proof.
  unfold resolves. destruct (shadow_rgb palette shadow xy.1 xy.2) as [v|e].
  - left. by exists v.
  - right. by intros [v ?].
Defined.

(** ** Subscripts *)

Lemma bind_Ok {A B} (m : result A) (k : A → result B) (b : B) :
  m ≫= k = Ok b ↔ ∃ a, m = Ok a ∧ k a = Ok b.
Proof.
  destruct m as [a|e]; simpl; split.
  - intros H; exists a; done.
  - intros (a' & [= <-] & H); done.
  - intros [=].
  - intros (a' & [=] & _).
Qed.

Lemma bind_Raise {A B} (m : result A) (k : A → result B) (e : exn) :
  m ≫= k = Raise e ↔ m = Raise e ∨ ∃ a, m = Ok a ∧ k a = Raise e.
Proof.
  destruct m as [a|e']; simpl; split.
  - intros H; right; exists a; done.
  - intros [[=]|(a' & [= <-] & H)]; done.
  - intros [= ->]; by left.
  - intros [[= ->]|(a' & [=] & _)]; done.
Qed.

Lemma getitem_nonneg {A} (l : list A) (i : Z) :
  0 ≤ i →
  getitem l i = match l !! Z.to_nat i with
                | Some a => Ok a
                | None => Raise IndexError
                end.
Proof.
  intros Hi. unfold getitem.
  destruct (Z.ltb_spec i 0); [lia|]. simpl.
  destruct (Z.ltb_spec i 0); [lia|done].
Qed.

Lemma getitem_lookup {A} (l : list A) (i : Z) (a : A) :
  0 ≤ i → l !! Z.to_nat i = Some a → getitem l i = Ok a.
Proof. intros Hi Hl. by rewrite getitem_nonneg, Hl. Qed.

Lemma getitem_elem_of {A} (l : list A) (i : Z) (a : A) :
  getitem l i = Ok a → a ∈ l.
Proof.
  unfold getitem.
  destruct (_ <? 0); [done|].
  destruct (l !! _) eqn:Hl; [|done].
  intros [= <-]. by eapply list_elem_of_lookup_2.
Qed.

Lemma getitem_Raise {A} (l : list A) (i : Z) (e : exn) :
  getitem l i = Raise e → e = IndexError.
Proof.
  unfold getitem.
  destruct (_ <? 0); [congruence|].
  destruct (l !! _); congruence.
Qed.

(** A subscript that is out of range on either side raises. *)
Lemma getitem_out_of_range {A} (l : list A) (i : Z) :
  i < - Z.of_nat (length l) ∨ Z.of_nat (length l) ≤ i →
  getitem l i = Raise IndexError.
Proof.
  intros Hi. unfold getitem.
  destruct (Z.ltb_spec i 0) as [Hneg|Hpos]; simpl.
  - destruct (Z.ltb_spec (i + Z.of_nat (length l)) 0); [done|lia].
  - destruct (Z.ltb_spec i 0); [lia|].
    rewrite lookup_ge_None_2; [done|lia].
Qed.

(** A negative subscript within range reads from the end. *)
Lemma getitem_negative {A} (l : list A) (i : Z) :
  - Z.of_nat (length l) ≤ i < 0 →
  getitem l i = getitem l (i + Z.of_nat (length l)).
Proof.
  intros Hi. rewrite (getitem_nonneg l (i + _)) by lia. unfold getitem.
  destruct (Z.ltb_spec i 0); [|lia]. simpl.
  destruct (Z.ltb_spec (i + Z.of_nat (length l)) 0); [lia|done].
Qed.

(** ** Pixels *)

Lemma offset_inside (img : Image) (xy : Z * Z) :
  inside (size img) xy →
  offset img xy = Ok (index (size img) xy).
Proof.
  unfold inside, offset, index.
  destruct (size img) as [w h], xy as [x y]; simpl.
  intros [Hx Hy].
  assert ((x <? 0) = false) as Hx0 by (apply Z.ltb_ge; lia).
  assert ((y <? 0) = false) as Hy0 by (apply Z.ltb_ge; lia).
  assert ((w <=? x) = false) as Hxw by (apply Z.leb_gt; lia).
  assert ((h <=? y) = false) as Hyh by (apply Z.leb_gt; lia).
  by rewrite !Hx0, !Hy0, Hxw, Hyh.
Qed.

(** Inside the image the offset is within the buffer, and two pixels
    share an offset only if they are the same pixel. *)
Lemma offset_lt (sz xy : Z * Z) :
  0 ≤ sz.1 → inside sz xy →
  (index sz xy < Z.to_nat (sz.1 * sz.2))%nat.
Proof.
  unfold inside, index. destruct sz as [w h], xy as [x y]; simpl.
  intros Hw [Hx Hy]. apply Z2Nat.inj_lt; nia.
Qed.

Lemma offset_inj (sz xy xy' : Z * Z) :
  inside sz xy → inside sz xy' →
  index sz xy = index sz xy' →
  xy = xy'.
Proof.
  unfold inside, index.
  destruct sz as [w h], xy as [x y], xy' as [x' y']; simpl.
  intros [Hx Hy] [Hx' Hy'] Heq.
  apply Z2Nat.inj in Heq; [|nia|nia].
  assert (y = y') as -> by nia.
  f_equal; lia.
Qed.

Lemma clip8_channel (c : Z) : is_channel c → clip8 c = c.
Proof.
  unfold is_channel, clip8. intros Hc.
  destruct (Z.ltb_spec c 0); [lia|].
  destruct (Z.ltb_spec 255 c); [lia|done].
Qed.

Lemma clip_rgb8 (v : rgb) : is_rgb8 v → clip_rgb v = v.
Proof.
  destruct v as [[r g] b]. unfold is_rgb8, clip_rgb; simpl.
  intros (Hr & Hg & Hb). by rewrite !clip8_channel.
Qed.

Lemma storable_rgb8 (v : rgb) : is_rgb8 v → storable v.
Proof.
  unfold is_rgb8, is_channel, storable, fits_long_long, fits_int. lia.
Qed.

Lemma getink_Ok (v ink : rgb) :
  getink v = Ok ink ↔ storable v ∧ ink = clip_rgb v.
Proof.
  unfold getink. destruct (decide (storable v)); split.
  - by intros [= <-].
  - by intros [_ ->].
  - intros [=].
  - by intros [? _].
Qed.


(** A colour of 8-bit channels is stored as it is. *)
Lemma getink_rgb8 (v : rgb) : is_rgb8 v → getink v = Ok v.
Proof.
  intros Hv. apply getink_Ok. split; [by apply storable_rgb8|].
  by rewrite clip_rgb8.
Qed.

Lemma putpixel_inside (img : Image) (xy : Z * Z) (v : rgb) :
  inside (size img) xy →
  putpixel img xy v =
  ink ← getink v;
  Ok (mkImage (mode img) (size img)
        (<[index (size img) xy := ink]> (pixels img))).
Proof. intros Hin. unfold putpixel. by rewrite offset_inside. Qed.

Lemma getpixel_inside (img : Image) (xy : Z * Z) (v : rgb) :
  inside (size img) xy →
  pixels img !! index (size img) xy = Some v →
  getpixel img xy = Ok v.
Proof.
  intros Hin Hv. unfold getpixel. rewrite offset_inside by done.
  simpl. by rewrite Hv.
Qed.

Lemma Image_new_wf (m : string) (sz : Z * Z) :
  0 ≤ sz.1 → 0 ≤ sz.2 → wf_image (Image_new m sz).
Proof.
  intros Hw Hh. unfold wf_image, Image_new; simpl.
  by rewrite length_replicate.
Qed.

(** ** Loops *)

Lemma for_app {A S} (xs ys : list A) (body : A → S → result S) (s : S) :
  for_ (xs ++ ys) body s = for_ xs body s ≫= for_ ys body.
Proof.
  revert s. induction xs as [|x xs IH]; intros s; simpl; [done|].
  destruct (body x s) as [s'|e]; simpl; [apply IH|done].
Qed.

(** A nested loop is one loop over the pairs, in the order the nesting
    visits them. *)
Lemma for_nested {A B S} (xs : list A) (ys : list B)
    (body : A → B → S → result S) (s : S) :
  for_ xs (λ x s, for_ ys (body x) s) s =
  for_ (x ← xs; y ← ys; [(x, y)]) (λ xy s, body xy.1 xy.2 s) s.
Proof.
  revert s. induction xs as [|x xs IH]; intros s; simpl; [done|].
  rewrite for_app.
  assert (∀ s0,
    for_ ys (body x) s0 =
    for_ (y ← ys; [(x, y)]) (λ xy s, body xy.1 xy.2 s) s0) as Hin.
  { clear. induction ys as [|y ys IHy]; intros s0; simpl; [done|].
    destruct (body x y s0); simpl; [apply IHy|done]. }
  rewrite <- Hin.
  destruct (for_ ys (body x) s); simpl; [apply IH|done].
Qed.

Lemma elem_of_loop_order (xy : Z * Z) :
  xy ∈ loop_order ↔ inside (width, height) xy.
Proof.
  unfold loop_order, inside, range, width, height. destruct xy as [x y].
  rewrite list_elem_of_bind. cbn [fst snd]. split.
  - intros (p & (s & Hs & Hps)%list_elem_of_bind & Hp).
    apply list_elem_of_singleton in Hs as [= -> ->].
    apply elem_of_seqZ in Hp, Hps. lia.
  - intros [Hx Hy]. exists x. split; [|apply elem_of_seqZ; lia].
    apply list_elem_of_bind. exists y. split; [|apply elem_of_seqZ; lia].
    by apply list_elem_of_singleton.
Qed.

Section Fill.

Variable palette : list rgb.
Variable shadow : gmap Z (list Z).

Lemma fill_pixels_in_order (img : Image) :
  fill_pixels palette shadow img = fill_in_order palette shadow loop_order img.
Proof.
  unfold fill_pixels, fill_in_order, loop_order.
  apply (for_nested _ _ (fill_pixel palette shadow)).
Qed.

(** The loop body looks the colour up and then stores it. *)
Lemma fill_pixel_shadow_rgb (p s : Z) (img : Image) :
  fill_pixel palette shadow p s img =
  shadow_rgb palette shadow p s ≫= putpixel img (p, s).
Proof.
  unfold fill_pixel, shadow_rgb.
  destruct (dict_getitem shadow p) as [row|]; simpl; [|done].
  destruct (getitem row s) as [i|]; simpl; [|done].
  done.
Qed.

(** Inside the image the loop body stores the converted colour, and
    raises only what the lookup or the conversion raise. *)
Lemma fill_pixel_shadow_ink (p s : Z) (img : Image) :
  inside (size img) (p, s) →
  fill_pixel palette shadow p s img =
  ink ← shadow_ink palette shadow p s;
  Ok (mkImage (mode img) (size img)
        (<[index (size img) (p, s) := ink]> (pixels img))).
Proof.
  intros Hin. rewrite fill_pixel_shadow_rgb. unfold shadow_ink.
  destruct (shadow_rgb palette shadow p s) as [v|e]; simpl; [|done].
  by rewrite putpixel_inside.
Qed.

Lemma fill_pixel_Ok (p s : Z) (img img' : Image) :
  inside (size img) (p, s) →
  fill_pixel palette shadow p s img = Ok img' ↔
  ∃ ink, shadow_ink palette shadow p s = Ok ink ∧
         img' = mkImage (mode img) (size img)
                  (<[index (size img) (p, s) := ink]> (pixels img)).
Proof.
  intros Hin. rewrite fill_pixel_shadow_ink, bind_Ok by done.
  split; intros (ink & Hink & H); exists ink; split; try done.
  - by injection H as <-.
  - by subst.
Qed.

Lemma shadow_ink_Ok (p s : Z) (ink : rgb) :
  shadow_ink palette shadow p s = Ok ink ↔
  ∃ v, shadow_rgb palette shadow p s = Ok v ∧ storable v ∧ ink = clip_rgb v.
Proof.
  unfold shadow_ink. rewrite bind_Ok.
  split; intros (v & Hv & H); exists v; (split; [done|]); by apply getink_Ok.
Qed.


(** Whatever the lookup raises is a [KeyError] for a missing row or an
    [IndexError]. *)
Lemma shadow_rgb_Raise (p s : Z) (e : exn) :
  shadow_rgb palette shadow p s = Raise e →
  (e = KeyError ∧ shadow !! p = None) ∨ e = IndexError.
Proof.
  unfold shadow_rgb, dict_getitem.
  destruct (shadow !! p) as [row|]; simpl; [|intros [= <-]; by left].
  intros H. right.
  apply bind_Raise in H as [H|(i & _ & H)]; by eapply getitem_Raise.
Qed.

(** What a run of the loop body over [order] leaves behind: the image
    keeps its shape, every pixel of [order] holds the colour looked up
    for it, and the other pixels are as they were. *)
Lemma fill_in_order_Ok (order : list (Z * Z)) (img img' : Image) :
  wf_image img →
  Forall (inside (size img)) order →
  fill_in_order palette shadow order img = Ok img' →
  mode img' = mode img ∧ size img' = size img ∧
  length (pixels img') = length (pixels img) ∧
  (∀ xy, xy ∈ order →
     ∃ ink, shadow_ink palette shadow xy.1 xy.2 = Ok ink ∧
            pixels img' !! index (size img) xy = Some ink) ∧
  (∀ i, (∀ xy, xy ∈ order → index (size img) xy ≠ i) →
     pixels img' !! i = pixels img !! i).
Proof.
  revert img. induction order as [|xy order IH]; intros img Hwf Hin Hrun.
  { injection Hrun as <-. repeat split; try done. intros xy []%elem_of_nil. }
  apply Forall_cons in Hin as [Hxy Hin].
  unfold fill_in_order in Hrun. simpl in Hrun.
  apply bind_Ok in Hrun as (img1 & Hbody & Hrest).
  destruct xy as [p s].
  apply fill_pixel_Ok in Hbody as (v & Hv & ->); [|done].
  destruct Hwf as (Hw & Hh & Hlen).
  apply IH in Hrest as (Hmode & Hsize & Hlength & Hset & Hframe);
    [|by (repeat split; simpl; rewrite ?length_insert)|done].
  simpl in *. rewrite length_insert in Hlength.
  repeat split; try done.
  - intros xy0 Hxy0.
    destruct (decide (xy0 ∈ order)) as [Hmem|Hnot]; [by apply Hset|].
    apply elem_of_cons in Hxy0 as [->|?]; [|done].
    exists v. split; [done|].
    rewrite Hframe.
    + apply list_lookup_insert_eq. rewrite Hlen. by apply offset_lt.
    + intros xy' Hxy' Heq. apply Hnot.
      rewrite Forall_forall in Hin.
      by rewrite <- (offset_inj (size img) xy' (p, s)) by auto.
  - intros i Hi. rewrite Hframe.
    + apply list_lookup_insert_ne. apply Hi. left.
    + intros xy' Hxy'. apply Hi. by right.
Qed.

(** The loop fails only where the lookup or the conversion of a pixel
    fails, and with its exception. *)
Lemma fill_in_order_Raise (order : list (Z * Z)) (img : Image) (e : exn) :
  Forall (inside (size img)) order →
  fill_in_order palette shadow order img = Raise e →
  ∃ xy, xy ∈ order ∧ shadow_ink palette shadow xy.1 xy.2 = Raise e.
Proof.
  revert img. induction order as [|[p s] order IH]; intros img Hin Hrun;
    [done|].
  apply Forall_cons in Hin as [Hxy Hin].
  unfold fill_in_order in Hrun. simpl in Hrun.
  apply bind_Raise in Hrun as [Hbody|(img1 & Hbody & Hrest)].
  - exists (p, s). split; [left|]. simpl.
    rewrite fill_pixel_shadow_ink in Hbody by done.
    by apply bind_Raise in Hbody as [?|(ink & _ & [=])].
  - apply fill_pixel_Ok in Hbody as (v & _ & ->); [|done].
    apply IH in Hrest as (xy' & Hmem & Hbody); [|done].
    exists xy'. split; [by right|done].
Qed.

(** The loop succeeds when every lookup and every conversion does. *)
Lemma fill_in_order_total (order : list (Z * Z)) (img : Image) :
  Forall (inside (size img)) order →
  Forall (λ xy, ∃ ink, shadow_ink palette shadow xy.1 xy.2 = Ok ink) order →
  ∃ img', fill_in_order palette shadow order img = Ok img'.
Proof.
  revert img. induction order as [|[p s] order IH]; intros img Hin Hok.
  { by exists img. }
  apply Forall_cons in Hin as [Hxy Hin].
  apply Forall_cons in Hok as [[ink Hink] Hok].
  unfold fill_in_order. simpl.
  rewrite fill_pixel_shadow_ink by done. simpl in Hink. rewrite Hink. simpl.
  by apply IH.
Qed.

End Fill.

(** A colour that was looked up is a colour of the palette. *)
Lemma shadow_rgb_elem_of (palette : list rgb) (shadow : gmap Z (list Z))
    (p s : Z) (v : rgb) :
  shadow_rgb palette shadow p s = Ok v → v ∈ palette.
Proof.
  unfold shadow_rgb. intros (row & _ & (i & _ & Hv)%bind_Ok)%bind_Ok.
  by eapply getitem_elem_of.
Qed.

(** On a palette of 8-bit channels the conversion changes nothing: what
    is stored is what was looked up. *)
Lemma shadow_ink_rgb8 (palette : list rgb) (shadow : gmap Z (list Z))
    (p s : Z) :
  Forall is_rgb8 palette →
  shadow_ink palette shadow p s = shadow_rgb palette shadow p s.
Proof.
  intros Hrgb. unfold shadow_ink.
  destruct (shadow_rgb palette shadow p s) as [v|e] eqn:Hv; simpl; [|done].
  apply getink_rgb8. rewrite Forall_forall in Hrgb.
  by eapply Hrgb, shadow_rgb_elem_of.
Qed.

(** ** The texture in memory *)

Section Build.

Variable palette : list rgb.
Variable shadow : gmap Z (list Z).

Lemma build_in_order :
  build palette shadow =
  fill_in_order palette shadow loop_order (Image_new "RGB" (width, height)).
Proof. unfold build. by rewrite fill_pixels_in_order. Qed.

Lemma loop_order_inside :
  Forall (inside (size (Image_new "RGB" (width, height)))) loop_order.
Proof. apply Forall_forall. intros xy. by rewrite elem_of_loop_order. Qed.

(** A texture that was built has the shape the script asked for, and
    each of its pixels holds the colour looked up for it. *)
Lemma build_Ok (img : Image) :
  build palette shadow = Ok img →
  mode img = "RGB" ∧ size img = (width, height) ∧
  length (pixels img) = 256%nat ∧
  ∀ p s, 0 ≤ p < 32 → 0 ≤ s < 8 →
    ∃ v, shadow_rgb palette shadow p s = Ok v ∧
         getpixel img (p, s) = Ok (clip_rgb v).
Proof.
  rewrite build_in_order. intros Hrun.
  apply fill_in_order_Ok in Hrun as (Hmode & Hsize & Hlen & Hset & _);
    [|by apply Image_new_wf|apply loop_order_inside].
  repeat split; try done.
  intros p s Hp Hs.
  assert (inside (width, height) (p, s)) as Hin by done.
  destruct (Hset (p, s)) as (ink & Hink & Hpx);
    [by apply elem_of_loop_order|].
  apply shadow_ink_Ok in Hink as (v & Hv & _ & ->).
  exists v. split; [done|].
  apply getpixel_inside; rewrite Hsize; done.
Qed.

Lemma build_total :
  (∀ p s, 0 ≤ p < 32 → 0 ≤ s < 8 →
     ∃ ink, shadow_ink palette shadow p s = Ok ink) →
  ∃ img, build palette shadow = Ok img.
Proof.
  intros Hok. rewrite build_in_order.
  apply fill_in_order_total; [apply loop_order_inside|].
  apply Forall_forall. intros [p s] [Hp Hs]%elem_of_loop_order.
  by apply Hok.
Qed.

Lemma build_Raise (e : exn) :
  build palette shadow = Raise e →
  ∃ p s, (0 ≤ p < 32 ∧ 0 ≤ s < 8) ∧
         shadow_ink palette shadow p s = Raise e.
Proof.
  rewrite build_in_order. intros Hrun.
  apply fill_in_order_Raise in Hrun as ([p s] & Hmem & Hraise);
    [|apply loop_order_inside].
  apply elem_of_loop_order in Hmem. by exists p, s.
Qed.

(** On tables that keep the invariants of the data model every lookup
    of the loop succeeds, with a colour of the palette. *)
Lemma valid_shadow_rgb (p s : Z) :
  valid_palette palette → valid_shadow shadow →
  0 ≤ p < 32 → 0 ≤ s < 8 →
  ∃ v, shadow_rgb palette shadow p s = Ok v ∧ v ∈ palette ∧ is_rgb8 v.
Proof.
  intros [Hlen Hrgb] [Hdom Hrows] Hp Hs.
  assert (p ∈ dom shadow) as [row Hrow]%elem_of_dom.
  { rewrite Hdom, elem_of_list_to_set. apply elem_of_seqZ. lia. }
  destruct (map_Forall_lookup_1 _ _ _ _ Hrows Hrow) as [Hlrow Hidx].
  destruct (lookup_lt_is_Some_2 row (Z.to_nat s)) as [i Hi]; [lia|].
  rewrite Forall_forall in Hidx.
  assert (0 ≤ i < 32) as Hirange.
  { apply Hidx. by eapply list_elem_of_lookup_2. }
  destruct (lookup_lt_is_Some_2 palette (Z.to_nat i)) as [v Hv]; [lia|].
  exists v. unfold shadow_rgb, dict_getitem. rewrite Hrow. simpl.
  rewrite (getitem_lookup row s i) by (done || lia). simpl.
  assert (v ∈ palette) as Hmem by by eapply list_elem_of_lookup_2.
  rewrite (getitem_lookup palette i v) by (done || lia).
  rewrite Forall_forall in Hrgb. auto.
Qed.

Lemma build_total_valid :
  valid_palette palette → valid_shadow shadow →
  ∃ img, build palette shadow = Ok img.
Proof.
  intros Hpal Hsh. apply build_total. intros p s Hp Hs.
  destruct (valid_shadow_rgb p s) as (v & Hv & _); try done.
  exists v. rewrite shadow_ink_rgb8 by apply Hpal. done.
Qed.

End Build.

(** ** The two literals *)

Lemma palette_colors_valid : valid_palette palette_colors.
Proof. by_evaluation. Qed.

Lemma shadow_levels_valid : valid_shadow shadow_levels.
Proof. by_evaluation. Qed.

(** The first entry of every row is the colour itself, the last one is
    colour 0. *)
Lemma shadow_levels_first (p : Z) :
  0 ≤ p < 32 → (row ← dict_getitem shadow_levels p; getitem row 0) = Ok p.
Proof.
  intros Hp.
  assert (Forall (λ p, (row ← dict_getitem shadow_levels p; getitem row 0)
                       = Ok p) (range 32)) as Hall by by_evaluation.
  rewrite Forall_forall in Hall. apply Hall, elem_of_seqZ. lia.
Qed.

Lemma shadow_levels_last (p : Z) :
  0 ≤ p < 32 → (row ← dict_getitem shadow_levels p; getitem row 7) = Ok 0.
Proof.
  intros Hp.
  assert (Forall (λ p, (row ← dict_getitem shadow_levels p; getitem row 7)
                       = Ok 0) (range 32)) as Hall by by_evaluation.
  rewrite Forall_forall in Hall. apply Hall, elem_of_seqZ. lia.
Qed.

(** The lookup of the loop body, given the entry of the shadow table. *)
Lemma shadow_rgb_entry (palette : list rgb) (shadow : gmap Z (list Z))
    (p s i : Z) :
  (row ← dict_getitem shadow p; getitem row s) = Ok i →
  shadow_rgb palette shadow p s = getitem palette i.
Proof.
  unfold shadow_rgb. intros (row & -> & Hi)%bind_Ok. simpl. by rewrite Hi.
Qed.

(** ** Order of the loop *)

Section Order.

Variable palette : list rgb.
Variable shadow : gmap Z (list Z).

(** The pixels may be filled in any order: the loop body run over a
    rearrangement of the same pixels leaves the same image, or fails
    as well. *)
Lemma fill_in_order_Permutation (order order' : list (Z * Z)) (img : Image) :
  wf_image img →
  Forall (inside (size img)) order →
  order ≡ₚ order' →
  value (fill_in_order palette shadow order img) =
  value (fill_in_order palette shadow order' img).
Proof.
  intros Hwf Hin Hperm.
  assert (Forall (inside (size img)) order') as Hin' by by rewrite <- Hperm.
  destruct (fill_in_order palette shadow order img) as [img1|e1] eqn:H1,
           (fill_in_order palette shadow order' img) as [img2|e2] eqn:H2;
    simpl; try done.
  - apply fill_in_order_Ok in H1 as (Hm1 & Hs1 & _ & Hset1 & Hfr1); try done.
    apply fill_in_order_Ok in H2 as (Hm2 & Hs2 & _ & Hset2 & Hfr2); try done.
    f_equal. destruct img1 as [m1 s1 px1], img2 as [m2 s2 px2]; simpl in *.
    f_equal; [congruence..|].
    apply list_eq. intros i.
    destruct (decide (Exists (λ xy, index (size img) xy = i) order))
      as [Hex|Hnex].
    + apply Exists_exists in Hex as (xy & Hxy & <-).
      destruct (Hset1 xy Hxy) as (v1 & Hv1 & ->).
      destruct (Hset2 xy) as (v2 & Hv2 & ->); [by rewrite <- Hperm|].
      congruence.
    + rewrite Hfr1, Hfr2; [done|..]; intros xy Hxy Heq; apply Hnex;
        apply Exists_exists; exists xy; split; try done.
      by rewrite Hperm.
  - apply fill_in_order_Raise in H2 as (xy & Hxy & Hraise); [|done].
    apply fill_in_order_Ok in H1 as (_ & _ & _ & Hset1 & _); try done.
    destruct (Hset1 xy) as (v & Hv & _); [by rewrite Hperm|congruence].
  - apply fill_in_order_Raise in H1 as (xy & Hxy & Hraise); [|done].
    apply fill_in_order_Ok in H2 as (_ & _ & _ & Hset2 & _); try done.
    destruct (Hset2 xy) as (v & Hv & _); [by rewrite <- Hperm|congruence].
Qed.

End Order.

(** ** The script in the world *)

Section Run.

Variable palette : list rgb.
Variable shadow : gmap Z (list Z).

(** The four ways the script can end. *)
Lemma create_palette_texture_Ok (w : World) (img : Image) :
  build palette shadow = Ok img →
  writable w output_path = true →
  create_palette_texture palette shadow w =
  (Ok tt, mkWorld (<[output_path := Complete img]> (files w)) (writable w)
                  (stdout w ++ confirmation) (opens w)).
Proof.
  intros Himg Hw.
  unfold create_palette_texture, mbind, IO_bind, io_bind, lift, save, print.
  rewrite Himg, Hw. cbn [files writable stdout opens].
  by rewrite <- !app_assoc.
Qed.

Lemma create_palette_texture_truncates (w : World) (img : Image) :
  build palette shadow = Ok img →
  writable w output_path = false →
  opens w output_path = true →
  create_palette_texture palette shadow w =
  (Raise OSError, mkWorld (<[output_path := Truncated]> (files w))
                    (writable w) (stdout w) (opens w)).
Proof.
  intros Himg Hw Ho.
  unfold create_palette_texture, mbind, IO_bind, io_bind, lift, save, print.
  by rewrite Himg, Hw, Ho.
Qed.

Lemma create_palette_texture_refused (w : World) (img : Image) :
  build palette shadow = Ok img →
  writable w output_path = false →
  opens w output_path = false →
  create_palette_texture palette shadow w = (Raise OSError, w).
Proof.
  intros Himg Hw Ho.
  unfold create_palette_texture, mbind, IO_bind, io_bind, lift, save, print.
  by rewrite Himg, Hw, Ho.
Qed.

Lemma create_palette_texture_unwritable (w : World) (img : Image) :
  build palette shadow = Ok img →
  writable w output_path = false →
  (create_palette_texture palette shadow w).1 = Raise OSError.
Proof.
  intros Himg Hw. destruct (opens w output_path) eqn:Ho.
  - by rewrite (create_palette_texture_truncates w img).
  - by rewrite (create_palette_texture_refused w img).
Qed.

Lemma create_palette_texture_build_Raise (w : World) (e : exn) :
  build palette shadow = Raise e →
  create_palette_texture palette shadow w = (Raise e, w).
Proof.
  intros Himg.
  unfold create_palette_texture, mbind, IO_bind, io_bind, lift, save, print.
  by rewrite Himg.
Qed.

(** An entry that is out of range on either side stops the build with
    an [IndexError], provided no row is missing and the colours of the
    palette are of 8-bit channels. *)
Lemma build_out_of_range (p s v : Z) :
  Forall is_rgb8 palette →
  rows_present shadow →
  0 ≤ p < 32 → 0 ≤ s < 8 →
  shadow_entry shadow p s = Ok v →
  v < - Z.of_nat (length palette) ∨ Z.of_nat (length palette) ≤ v →
  build palette shadow = Raise IndexError.
Proof.
  intros Hrgb Hrows Hp Hs Hentry Hv.
  assert (shadow_rgb palette shadow p s = Raise IndexError) as Hbad.
  { rewrite (shadow_rgb_entry _ _ p s v) by done.
    by apply getitem_out_of_range. }
  destruct (build palette shadow) as [img|e] eqn:Himg.
  - apply build_Ok in Himg as (_ & _ & _ & Hpx).
    destruct (Hpx p s Hp Hs) as (v' & Hv' & _). congruence.
  - apply build_Raise in Himg as (q & t & [Hq Ht] & Hraise).
    rewrite shadow_ink_rgb8 in Hraise by done.
    apply shadow_rgb_Raise in Hraise as [[_ Hnone]| ->]; [|done].
    unfold rows_present in Hrows. rewrite Forall_forall in Hrows.
    destruct (Hrows q) as [row Hrow]; [apply elem_of_seqZ; lia|congruence].
Qed.

End Run.

(** An entry from -32 to -1 is not rejected: the lookup reads the palette
    from its end. *)
Lemma shadow_rgb_negative_entry (palette : list rgb)
    (shadow : gmap Z (list Z)) (p s i : Z) :
  shadow_entry shadow p s = Ok i →
  - Z.of_nat (length palette) ≤ i < 0 →
  shadow_rgb palette shadow p s =
  getitem palette (i + Z.of_nat (length palette)).
Proof.
  intros Hentry Hi. rewrite (shadow_rgb_entry _ _ p s i) by done.
  by apply getitem_negative.
Qed.

(** Where the [assets] directory is missing the script raises after the
    build and leaves the world as it was. *)
Lemma main_unwritable : main readonly_world = (Raise OSError, readonly_world).
Proof. vm_compute. reflexivity. Qed.

(** ** The properties of the specification *)

(** C1.  On a palette and a shadow table that keep the invariants of the
    data model the build succeeds with a 32x8 grid of 256 pixels, and for
    every palette index [p] in [0,32) and shadow level [s] in [0,8) the
    pixel at column [p], row [s] is exactly [palette[shadowTable[p][s]]]. *)
Theorem build_pixel_exact (palette : list rgb) (shadow : gmap Z (list Z)) :
  valid_palette palette → valid_shadow shadow →
  ∃ img, build palette shadow = Ok img ∧
         size img = (32, 8) ∧ length (pixels img) = 256%nat ∧
         ∀ p s, 0 ≤ p < 32 → 0 ≤ s < 8 →
           ∃ v, shadow_rgb palette shadow p s = Ok v ∧
                getpixel img (p, s) = Ok v.
Proof.
  intros Hpal Hsh.
  destruct (build_total_valid palette shadow Hpal Hsh) as [img Himg].
  exists img. split; [done|].
  apply build_Ok in Himg as (_ & Hsize & Hlen & Hpx).
  repeat split; try done.
  intros p s Hp Hs.
  destruct (Hpx p s Hp Hs) as (v & Hv & Hget).
  destruct (valid_shadow_rgb palette shadow p s) as (v' & Hv' & _ & Hrgb);
    try done.
  assert (v' = v) as -> by congruence.
  exists v. by rewrite <- (clip_rgb8 v) at 2.
Qed.

Lemma build_pixel_exact_witness :
  valid_palette palette_colors ∧ valid_shadow shadow_levels ∧
  ∃ img, build palette_colors shadow_levels = Ok img ∧
         size img = (32, 8) ∧ length (pixels img) = 256%nat ∧
         ∀ p s, 0 ≤ p < 32 → 0 ≤ s < 8 →
           ∃ v, shadow_rgb palette_colors shadow_levels p s = Ok v ∧
                getpixel img (p, s) = Ok v.
Proof.
  assert (valid_palette palette_colors) as Hpal by by_evaluation.
  assert (valid_shadow shadow_levels) as Hsh by by_evaluation.
  split; [exact Hpal|]. split; [exact Hsh|].
  exact (build_pixel_exact palette_colors shadow_levels Hpal Hsh).
Defined.

(** C3.  For every palette index [p] in [0,32) the shadow table of the
    script has [shadowTable[p][0] == p], and the pixel at [(p, 0)] of the
    texture is [palette[p]]: level 0 gives the base colour back. *)
Theorem level_zero_is_base_color (p : Z) :
  0 ≤ p < 32 →
  (row ← dict_getitem shadow_levels p; getitem row 0) = Ok p ∧
  ∃ img v, build palette_colors shadow_levels = Ok img ∧
           getitem palette_colors p = Ok v ∧
           getpixel img (p, 0) = Ok v.
Proof.
  intros Hp. split; [by apply shadow_levels_first|].
  destruct (build_total_valid palette_colors shadow_levels) as [img Himg];
    [apply palette_colors_valid|apply shadow_levels_valid|].
  destruct (build_Ok _ _ _ Himg) as (_ & _ & _ & Hpx).
  destruct (Hpx p 0) as (v & Hv & Hget); [done|lia|].
  destruct (valid_shadow_rgb palette_colors shadow_levels p 0)
    as (v' & Hv' & _ & Hrgb);
    [apply palette_colors_valid|apply shadow_levels_valid|done|lia|].
  assert (v' = v) as -> by congruence.
  rewrite (shadow_rgb_entry _ _ p 0 p) in Hv by by apply shadow_levels_first.
  rewrite clip_rgb8 in Hget by exact Hrgb.
  exists img, v. split; [exact Himg|]. split; [exact Hv|exact Hget].
Qed.

Lemma level_zero_is_base_color_witness :
  0 ≤ 8 < 32 ∧
  (row ← dict_getitem shadow_levels 8; getitem row 0) = Ok 8 ∧
  ∃ img v, build palette_colors shadow_levels = Ok img ∧
           getitem palette_colors 8 = Ok v ∧
           getpixel img (8, 0) = Ok v.
Proof.
  assert (0 ≤ 8 < 32) as H by lia.
  split; [exact H|]. exact (level_zero_is_base_color 8 H).
Defined.

(** C4.  For every palette index [p] in [0,32) the pixel at [(p, 7)] of
    the texture is [palette[0]], which is pure black [(0,0,0)]. *)
Theorem darkest_level_is_black (p : Z) :
  0 ≤ p < 32 →
  getitem palette_colors 0 = Ok (0, 0, 0) ∧
  ∃ img, build palette_colors shadow_levels = Ok img ∧
         getpixel img (p, 7) = getitem palette_colors 0.
Proof.
  intros Hp. split; [reflexivity|].
  destruct (build_total_valid palette_colors shadow_levels) as [img Himg];
    [apply palette_colors_valid|apply shadow_levels_valid|].
  destruct (build_Ok _ _ _ Himg) as (_ & _ & _ & Hpx).
  destruct (Hpx p 7) as (v & Hv & Hget); [done|lia|].
  rewrite (shadow_rgb_entry _ _ p 7 0) in Hv by by apply shadow_levels_last.
  exists img. split; [exact Himg|].
  rewrite Hget. injection Hv as <-. reflexivity.
Qed.

Lemma darkest_level_is_black_witness :
  0 ≤ 31 < 32 ∧
  getitem palette_colors 0 = Ok (0, 0, 0) ∧
  ∃ img, build palette_colors shadow_levels = Ok img ∧
         getpixel img (31, 7) = getitem palette_colors 0.
Proof.
  assert (0 ≤ 31 < 32) as H by lia.
  split; [exact H|]. exact (darkest_level_is_black 31 H).
Defined.

(** C5.  The shadow row of palette index 8 is [8, 8, 24, 24, 2, 21, 1, 0],
    and column 8 of the texture reads, from row 0 to row 7,
    (0xff,0x00,0x4d), (0xff,0x00,0x4d), (0xc3,0x00,0x4c), (0xc3,0x00,0x4c),
    (0x7e,0x25,0x53), (0x49,0x2d,0x38), (0x1d,0x2b,0x53), (0x00,0x00,0x00). *)
Theorem column_8_scenario :
  dict_getitem shadow_levels 8 = Ok [8; 8; 24; 24; 2; 21; 1; 0] ∧
  getitem palette_colors 8 = Ok (0xff, 0x00, 0x4d) ∧
  ∃ img, build palette_colors shadow_levels = Ok img ∧
         (λ s, getpixel img (8, s)) <$> range 8 =
         [ Ok (0xff, 0x00, 0x4d); Ok (0xff, 0x00, 0x4d);
           Ok (0xc3, 0x00, 0x4c); Ok (0xc3, 0x00, 0x4c);
           Ok (0x7e, 0x25, 0x53); Ok (0x49, 0x2d, 0x38);
           Ok (0x1d, 0x2b, 0x53); Ok (0x00, 0x00, 0x00) ].
Proof.
  split; [vm_compute; reflexivity|]. split; [vm_compute; reflexivity|].
  destruct (build palette_colors shadow_levels) as [img|e] eqn:Himg;
    vm_compute in Himg; [|discriminate].
  exists img. split; [reflexivity|].
  injection Himg as <-. vm_compute. reflexivity.
Qed.

(** C2, as the code has it.  The script never checks the shadow table; an
    entry is rejected only where Python's subscript rejects it.  With all
    32 rows present and a palette of 32 colours of 8-bit channels, an
    entry that is 32 or more, or less than -32, stops the build with
    [IndexError] before anything is saved or printed: the world is left as
    it was.  (The table of the script with one entry set to 32 is such a
    table.) *)
Theorem out_of_range_entry_raises (palette : list rgb)
    (shadow : gmap Z (list Z)) (w : World) (p s v : Z) :
  valid_palette palette →
  rows_present shadow →
  0 ≤ p < 32 → 0 ≤ s < 8 →
  shadow_entry shadow p s = Ok v →
  v < -32 ∨ 32 ≤ v →
  create_palette_texture palette shadow w = (Raise IndexError, w).
Proof.
  intros [Hlen Hrgb] Hrows Hp Hs Hentry Hv.
  apply create_palette_texture_build_Raise.
  apply (build_out_of_range palette shadow p s v); try done.
  rewrite Hlen. lia.
Qed.

Lemma out_of_range_entry_raises_witness :
  valid_palette palette_colors ∧
  rows_present (set_entry shadow_levels 8 2 32) ∧
  shadow_entry (set_entry shadow_levels 8 2 32) 8 2 = Ok 32 ∧
  create_palette_texture palette_colors (set_entry shadow_levels 8 2 32)
    fresh_world = (Raise IndexError, fresh_world).
Proof.
  assert (valid_palette palette_colors) as Hpal by by_evaluation.
  assert (rows_present (set_entry shadow_levels 8 2 32)) as Hrows
    by by_evaluation.
  assert (shadow_entry (set_entry shadow_levels 8 2 32) 8 2 = Ok 32) as Hentry
    by (vm_compute; reflexivity).
  split; [exact Hpal|]. split; [exact Hrows|]. split; [exact Hentry|].
  exact (out_of_range_entry_raises palette_colors
           (set_entry shadow_levels 8 2 32) fresh_world 8 2 32
           Hpal Hrows ltac:(lia) ltac:(lia) Hentry ltac:(lia)).
Defined.

(** C2, as the claim has it, fails: with the entry of colour 8 at level 2
    set to -1, which is outside [0,32), nothing is raised.  The build
    succeeds, the pixel at (8, 2) is the last colour of the palette, and
    the file is written. *)
Lemma negative_entry_not_rejected :
  shadow_entry (set_entry shadow_levels 8 2 (-1)) 8 2 = Ok (-1) ∧
  ¬ (0 ≤ -1 < 32) ∧
  ∃ img,
    build palette_colors (set_entry shadow_levels 8 2 (-1)) = Ok img ∧
    getpixel img (8, 2) = Ok (0xff, 0x85, 0x6d) ∧
    create_palette_texture palette_colors (set_entry shadow_levels 8 2 (-1))
      fresh_world =
    (Ok tt, mkWorld {[ output_path := Complete img ]} (writable fresh_world)
                    confirmation (opens fresh_world)).
Proof.
  split; [vm_compute; reflexivity|]. split; [lia|].
  destruct (build palette_colors (set_entry shadow_levels 8 2 (-1)))
    as [img|e] eqn:Himg; vm_compute in Himg; [|discriminate].
  exists img. split; [reflexivity|].
  injection Himg as <-. split; vm_compute; reflexivity.
Qed.

(** The table of the script with any one entry set to 32 stops the build. *)
Lemma set_entry_32_raises (p s : Z) (w : World) :
  0 ≤ p < 32 → 0 ≤ s < 8 →
  create_palette_texture palette_colors (set_entry shadow_levels p s 32) w =
  (Raise IndexError, w).
Proof.
  intros Hp Hs.
  assert (Forall (λ ps, rows_present (set_entry shadow_levels ps.1 ps.2 32) ∧
                        shadow_entry (set_entry shadow_levels ps.1 ps.2 32)
                          ps.1 ps.2 = Ok 32) loop_order) as Hall
    by by_evaluation.
  rewrite Forall_forall in Hall.
  destruct (Hall (p, s)) as [Hrows Hentry]; [by apply elem_of_loop_order|].
  apply create_palette_texture_build_Raise.
  apply (build_out_of_range _ _ p s 32); try done.
  - apply palette_colors_valid.
  - right. change (Z.of_nat (length palette_colors)) with 32. lia.
Qed.




(** C7.  The two literals keep the invariants of the data model: the
    palette has exactly 32 entries, every channel is an 8-bit unsigned
    integer and entry 0 is pure black; the shadow table has exactly 32
    rows, those of the indices 0 to 31, every row has exactly 8 entries and
    every entry is a palette index in [0,32). *)
Theorem tables_keep_invariants :
  length palette_colors = 32%nat ∧
  Forall (λ v : rgb,
            (0 ≤ v.1.1 < 256) ∧ (0 ≤ v.1.2 < 256) ∧ (0 ≤ v.2 < 256))
    palette_colors ∧
  getitem palette_colors 0 = Ok (0, 0, 0) ∧
  base.size shadow_levels = 32%nat ∧
  (∀ p, is_Some (shadow_levels !! p) ↔ 0 ≤ p < 32) ∧
  (∀ p row, shadow_levels !! p = Some row →
     length row = 8%nat ∧ Forall (λ i, 0 ≤ i < 32) row).
Proof.
  destruct palette_colors_valid as [Hlen Hrgb].
  destruct shadow_levels_valid as [Hdom Hrows].
  split; [exact Hlen|]. split; [exact Hrgb|]. split; [reflexivity|].
  split; [by_evaluation|]. split.
  - intros p. rewrite <- elem_of_dom, Hdom, elem_of_list_to_set.
    unfold range. rewrite elem_of_seqZ. lia.
  - intros p row Hrow. exact (map_Forall_lookup_1 _ _ _ _ Hrows Hrow).
Qed.

(** C8.  Where the output path can be written, the script writes one
    file, at the fixed relative path [assets/palette_shadow_lookup.png]:
    an image of mode RGB (three bands, no alpha), 32 pixels wide and 8
    pixels tall, whose pixel in column [p] and row [s] is the colour of
    palette index [p] at shadow level [s]. *)
Theorem output_file_layout (w : World) :
  writable w output_path = true →
  ∃ img,
    (main w).1 = Ok tt ∧
    files (main w).2 =
      <["assets/palette_shadow_lookup.png" := Complete img]> (files w) ∧
    mode img = "RGB" ∧ getbands (mode img) = ["R"; "G"; "B"] ∧
    size img = (32, 8) ∧ length (pixels img) = 256%nat ∧
    ∀ p s, 0 ≤ p < 32 → 0 ≤ s < 8 →
      getpixel img (p, s) = shadow_rgb palette_colors shadow_levels p s.
Proof.
  intros Hw. unfold main.
  destruct (build_pixel_exact palette_colors shadow_levels)
    as (img & Himg & _ & _ & Hpx);
    [apply palette_colors_valid|apply shadow_levels_valid|].
  exists img.
  rewrite (create_palette_texture_Ok _ _ _ img Himg Hw).
  destruct (build_Ok _ _ _ Himg) as (Hmode & Hsize & Hlen & _).
  split; [reflexivity|]. split; [reflexivity|]. split; [exact Hmode|].
  split; [by rewrite Hmode|]. split; [exact Hsize|]. split; [exact Hlen|].
  intros p s Hp Hs. destruct (Hpx p s Hp Hs) as (v & -> & ->). reflexivity.
Qed.

Lemma output_file_layout_witness :
  writable fresh_world output_path = true ∧
  ∃ img,
    (main fresh_world).1 = Ok tt ∧
    files (main fresh_world).2 =
      <["assets/palette_shadow_lookup.png" := Complete img]>
        (files fresh_world) ∧
    mode img = "RGB" ∧ getbands (mode img) = ["R"; "G"; "B"] ∧
    size img = (32, 8) ∧ length (pixels img) = 256%nat ∧
    ∀ p s, 0 ≤ p < 32 → 0 ≤ s < 8 →
      getpixel img (p, s) = shadow_rgb palette_colors shadow_levels p s.
Proof.
  split; [reflexivity|]. exact (output_file_layout fresh_world eq_refl).
Defined.

(** C9.  The build is deterministic.  Filling the pixels in any order, a
    rearrangement of the order of the nested loop, gives the very grid the
    nested loop gives (or fails where it fails); and two runs that
    succeed, in whatever world each starts, save the same image. *)
Theorem build_deterministic (palette : list rgb) (shadow : gmap Z (list Z)) :
  (∀ order, order ≡ₚ loop_order →
     value (fill_in_order palette shadow order
              (Image_new "RGB" (width, height))) =
     value (build palette shadow)) ∧
  (∀ w1 w2,
     (create_palette_texture palette shadow w1).1 = Ok tt →
     (create_palette_texture palette shadow w2).1 = Ok tt →
     files (create_palette_texture palette shadow w1).2 !! output_path =
     files (create_palette_texture palette shadow w2).2 !! output_path).
Proof.
  split.
  - intros order Hperm. rewrite build_in_order.
    apply fill_in_order_Permutation; [by apply Image_new_wf| |done].
    rewrite Hperm. apply loop_order_inside.
  - intros w1 w2 H1 H2.
    destruct (build palette shadow) as [img|e] eqn:Himg.
    + destruct (writable w1 output_path) eqn:Hw1.
      2:{ by rewrite (create_palette_texture_unwritable _ _ _ img) in H1. }
      destruct (writable w2 output_path) eqn:Hw2.
      2:{ by rewrite (create_palette_texture_unwritable _ _ _ img) in H2. }
      rewrite !(create_palette_texture_Ok _ _ _ img) by done.
      cbn [files snd]. by rewrite !lookup_insert_eq.
    + by rewrite (create_palette_texture_build_Raise _ _ _ e Himg) in H1.
Qed.

Lemma build_deterministic_witness :
  reverse loop_order ≡ₚ loop_order ∧
  value (fill_in_order palette_colors shadow_levels (reverse loop_order)
           (Image_new "RGB" (width, height))) =
  value (build palette_colors shadow_levels) ∧
  (main fresh_world).1 = Ok tt ∧ (main used_world).1 = Ok tt ∧
  files (main fresh_world).2 !! output_path =
  files (main used_world).2 !! output_path.
Proof.
  assert (reverse loop_order ≡ₚ loop_order) as Hperm
    by apply reverse_Permutation.
  assert ((main fresh_world).1 = Ok tt) as H1 by (vm_compute; reflexivity).
  assert ((main used_world).1 = Ok tt) as H2 by (vm_compute; reflexivity).
  split; [exact Hperm|].
  split; [exact (proj1 (build_deterministic palette_colors shadow_levels)
                   (reverse loop_order) Hperm)|].
  split; [exact H1|]. split; [exact H2|].
  exact (proj2 (build_deterministic palette_colors shadow_levels)
           fresh_world used_world H1 H2).
Defined.

(** C10.  Every pixel of a texture the build returns is a colour of the
    palette it was built from, whatever the shadow table, the palette
    being one of 8-bit channels. *)
Theorem pixels_within_palette (palette : list rgb)
    (shadow : gmap Z (list Z)) (img : Image) :
  Forall is_rgb8 palette →
  build palette shadow = Ok img →
  ∀ v, v ∈ pixels img → v ∈ palette.
Proof.
  intros Hrgb Himg v [i Hi]%list_elem_of_lookup_1.
  destruct (build_Ok _ _ _ Himg) as (_ & Hsize & Hlen & Hpx).
  assert (i < 256)%nat as Hlt by (rewrite <- Hlen; by eapply lookup_lt_Some).
  set (p := Z.of_nat i mod 32). set (s := Z.of_nat i / 32).
  assert (0 ≤ p < 32) as Hp by (apply Z.mod_pos_bound; lia).
  assert (0 ≤ s < 8) as Hs.
  { split; [apply Z.div_pos; lia|apply Z.div_lt_upper_bound; lia]. }
  assert (index (size img) (p, s) = i) as Hidx.
  { rewrite Hsize. unfold index, width. cbn [fst snd].
    replace (s * 32 + p) with (Z.of_nat i); [apply Nat2Z.id|].
    subst p s. pose proof (Z.div_mod (Z.of_nat i) 32). lia. }
  destruct (Hpx p s Hp Hs) as (v' & Hv' & Hget).
  rewrite (getpixel_inside img (p, s) v) in Hget;
    [|by rewrite Hsize|by rewrite Hidx].
  injection Hget as ->.
  apply shadow_rgb_elem_of in Hv'.
  rewrite Forall_forall in Hrgb. by rewrite clip_rgb8 by auto.
Qed.

Lemma pixels_within_palette_witness :
  Forall is_rgb8 palette_colors ∧
  ∃ img, build palette_colors shadow_levels = Ok img ∧
         ∀ v, v ∈ pixels img → v ∈ palette_colors.
Proof.
  assert (Forall is_rgb8 palette_colors) as Hrgb by by_evaluation.
  split; [exact Hrgb|].
  destruct (build palette_colors shadow_levels) as [img|e] eqn:Himg;
    vm_compute in Himg; [|discriminate].
  exists img. split; [reflexivity|].
  exact (pixels_within_palette palette_colors shadow_levels img Hrgb
           ltac:(rewrite <- Himg; vm_compute; reflexivity)).
Defined.

(** ** Further properties of the script *)

(** *** Subscripts within range *)

Lemma getitem_Ok_range {A} (l : list A) (i : Z) (a : A) :
  getitem l i = Ok a →
  - Z.of_nat (length l) ≤ i < Z.of_nat (length l).
Proof.
  intros Hget.
  destruct (decide (- Z.of_nat (length l) ≤ i < Z.of_nat (length l)))
    as [|Hout]; [done|].
  rewrite getitem_out_of_range in Hget by lia. discriminate.
Qed.

(** Within range a subscript reads the element at [i mod len]. *)
Lemma getitem_mod {A} (l : list A) (i : Z) :
  - Z.of_nat (length l) ≤ i < Z.of_nat (length l) →
  ∃ a, l !! Z.to_nat (i mod Z.of_nat (length l)) = Some a ∧
       getitem l i = Ok a.
Proof.
  intros Hi. set (n := Z.of_nat (length l)) in *.
  destruct (decide (i < 0)) as [Hneg|Hpos].
  - assert (i mod n = i + n) as ->.
    { rewrite <- (Z.mod_small (i + n) n) by lia.
      replace (i + n) with (i + 1 * n) at 1 by lia.
      by rewrite Z_mod_plus_full. }
    destruct (lookup_lt_is_Some_2 l (Z.to_nat (i + n))) as [a Ha]; [lia|].
    exists a. split; [done|].
    rewrite getitem_negative by (fold n; lia). fold n.
    by apply getitem_lookup; [lia|].
  - rewrite Z.mod_small by lia.
    destruct (lookup_lt_is_Some_2 l (Z.to_nat i)) as [a Ha]; [lia|].
    exists a. split; [done|]. by apply getitem_lookup; [lia|].
Qed.

(** *** The first failure *)

Lemma loop_order_sorted : StronglySorted precedes loop_order.
Proof. by_evaluation. Qed.

Section Failure.

Variable palette : list rgb.
Variable shadow : gmap Z (list Z).

(** A loop that fails stops at the first pixel that cannot be filled,
    with the exception of its lookup or of its conversion. *)
Lemma fill_in_order_first_failure (order : list (Z * Z)) (img : Image)
    (e : exn) :
  Forall (inside (size img)) order →
  fill_in_order palette shadow order img = Raise e →
  ∃ done_ xy rest,
    order = done_ ++ xy :: rest ∧
    Forall (fills palette shadow) done_ ∧
    shadow_ink palette shadow xy.1 xy.2 = Raise e.
Proof.
  revert img. induction order as [|[p s] order IH]; intros img Hin Hrun;
    [done|].
  apply Forall_cons in Hin as [Hxy Hin].
  unfold fill_in_order in Hrun. simpl in Hrun.
  apply bind_Raise in Hrun as [Hbody|(img1 & Hbody & Hrest)].
  - exists [], (p, s), order. split; [done|]. split; [constructor|].
    rewrite fill_pixel_shadow_ink in Hbody by done.
    by apply bind_Raise in Hbody as [?|(ink & _ & [=])].
  - apply fill_pixel_Ok in Hbody as (v & Hv & ->); [|done].
    apply IH in Hrest as (done_ & xy & rest & -> & Hdone & Hraise); [|done].
    exists ((p, s) :: done_), xy, rest. split; [done|].
    split; [|done]. constructor; [by exists v|done].
Qed.

(** The lookups alone decide what the build returns. *)
Lemma fill_in_order_ext (palette' : list rgb) (shadow' : gmap Z (list Z))
    (order : list (Z * Z)) (img : Image) :
  Forall (λ xy, shadow_rgb palette shadow xy.1 xy.2 =
                shadow_rgb palette' shadow' xy.1 xy.2) order →
  fill_in_order palette shadow order img =
  fill_in_order palette' shadow' order img.
Proof.
  revert img. induction order as [|[p s] order IH]; intros img Hsame; [done|].
  apply Forall_cons in Hsame as [Hps Hsame].
  unfold fill_in_order. simpl. rewrite !fill_pixel_shadow_rgb.
  simpl in Hps. rewrite Hps.
  destruct (shadow_rgb palette' shadow' p s ≫= putpixel img (p, s))
    as [img1|e]; simpl; [by apply IH|done].
Qed.

Lemma build_ext (palette' : list rgb) (shadow' : gmap Z (list Z)) :
  (∀ p s, 0 ≤ p < 32 → 0 ≤ s < 8 →
     shadow_rgb palette shadow p s = shadow_rgb palette' shadow' p s) →
  build palette shadow = build palette' shadow'.
Proof.
  intros Hsame. rewrite !build_in_order. apply fill_in_order_ext.
  apply Forall_forall. intros [p s] [Hp Hs]%elem_of_loop_order.
  by apply Hsame.
Qed.

End Failure.

Section First.

Variable palette : list rgb.
Variable shadow : gmap Z (list Z).

(** The exception of a failed build is that of a pixel that cannot be
    filled while all the pixels before it are. *)
Lemma build_Raise_first (e : exn) :
  build palette shadow = Raise e →
  ∃ p s, (0 ≤ p < 32 ∧ 0 ≤ s < 8) ∧
         shadow_ink palette shadow p s = Raise e ∧
         ∀ q t, 0 ≤ q < 32 → 0 ≤ t < 8 → precedes (q, t) (p, s) →
                fills palette shadow (q, t).
Proof.
  rewrite build_in_order. intros Hrun.
  apply fill_in_order_first_failure in Hrun
    as (done_ & [p s] & rest & Horder & Hdone & Hraise);
    [|apply loop_order_inside].
  assert ((p, s) ∈ loop_order) as Hin.
  { rewrite Horder. apply elem_of_app. right. left. }
  apply elem_of_loop_order in Hin.
  exists p, s. split; [done|]. split; [done|].
  intros q t Hq Ht Hprec.
  assert ((q, t) ∈ loop_order) as Hmem by by apply elem_of_loop_order.
  pose proof loop_order_sorted as Hsorted. rewrite Horder in Hsorted.
  apply StronglySorted_app_1_r, StronglySorted_cons in Hsorted as [Hafter _].
  rewrite Forall_forall in Hafter, Hdone.
  rewrite Horder in Hmem.
  apply elem_of_app in Hmem as [Hmem|Hmem]; [by apply Hdone|].
  apply elem_of_cons in Hmem as [[= -> ->]|Hmem].
  - unfold precedes in Hprec; simpl in Hprec. lia.
  - apply Hafter in Hmem. unfold precedes in Hprec, Hmem; simpl in *. lia.
Qed.

(** The lookup, in terms of the entry it goes through. *)
Lemma shadow_rgb_Ok (p s : Z) (v : rgb) :
  shadow_rgb palette shadow p s = Ok v ↔
  ∃ i, shadow_entry shadow p s = Ok i ∧ getitem palette i = Ok v.
Proof.
  unfold shadow_rgb, shadow_entry. split.
  - intros (row & Hrow & (i & Hi & Hv)%bind_Ok)%bind_Ok.
    exists i. split; [|done]. apply bind_Ok. eauto.
  - intros (i & (row & Hrow & Hi)%bind_Ok & Hv).
    apply bind_Ok. exists row. split; [done|].
    apply bind_Ok. eauto.
Qed.

End First.

(** X1.  On a palette of 8-bit channels the build succeeds exactly when
    each of the 256 entries the loop reads exists and is a subscript Python
    accepts for the palette: at least minus its length and less than its
    length. *)
Theorem build_succeeds_iff (palette : list rgb) (shadow : gmap Z (list Z)) :
  Forall is_rgb8 palette →
  (∃ img, build palette shadow = Ok img) ↔
  ∀ p s, 0 ≤ p < 32 → 0 ≤ s < 8 →
    ∃ i, shadow_entry shadow p s = Ok i ∧
         - Z.of_nat (length palette) ≤ i < Z.of_nat (length palette).
Proof.
  intros Hrgb. split.
  - intros [img Himg] p s Hp Hs.
    apply build_Ok in Himg as (_ & _ & _ & Hpx).
    destruct (Hpx p s Hp Hs) as (v & (i & Hi & Hv)%shadow_rgb_Ok & _).
    exists i. split; [done|]. by eapply getitem_Ok_range.
  - intros Hall. apply build_total. intros p s Hp Hs.
    destruct (Hall p s Hp Hs) as (i & Hi & Hrange).
    destruct (getitem_mod palette i Hrange) as (v & _ & Hv).
    exists v. rewrite shadow_ink_rgb8 by done. apply shadow_rgb_Ok. eauto.
Qed.

Lemma build_succeeds_iff_witness :
  Forall is_rgb8 palette_colors ∧
  ((∃ img, build palette_colors (delete 5 shadow_levels) = Ok img) ↔
   ∀ p s, 0 ≤ p < 32 → 0 ≤ s < 8 →
     ∃ i, shadow_entry (delete 5 shadow_levels) p s = Ok i ∧
          - Z.of_nat (length palette_colors) ≤ i
            < Z.of_nat (length palette_colors)).
Proof.
  assert (Forall is_rgb8 palette_colors) as Hrgb by by_evaluation.
  split; [exact Hrgb|].
  exact (build_succeeds_iff palette_colors (delete 5 shadow_levels) Hrgb).
Defined.

(** X2.  In a texture that was built, the pixel of colour [p] at level [s]
    is the palette entry at the shadow-table entry taken modulo the length
    of the palette, its channels stored as bytes: an entry from minus the
    length to -1 reads the palette from its end. *)
Theorem pixel_reads_palette_modulo (palette : list rgb)
    (shadow : gmap Z (list Z)) (img : Image) (p s i : Z) :
  build palette shadow = Ok img →
  0 ≤ p < 32 → 0 ≤ s < 8 →
  shadow_entry shadow p s = Ok i →
  ∃ v, palette !! Z.to_nat (i mod Z.of_nat (length palette)) = Some v ∧
       getpixel img (p, s) = Ok (clip_rgb v).
Proof.
  intros Himg Hp Hs Hi.
  apply build_Ok in Himg as (_ & _ & _ & Hpx).
  destruct (Hpx p s Hp Hs) as (v & (i' & Hi' & Hv)%shadow_rgb_Ok & Hget).
  assert (i' = i) as -> by congruence.
  destruct (getitem_mod palette i) as (v' & Hlook & Hv');
    [by eapply getitem_Ok_range|].
  exists v. split; [|done]. congruence.
Qed.

Lemma pixel_reads_palette_modulo_witness :
  ∃ img,
    build palette_colors (set_entry shadow_levels 8 2 (-1)) = Ok img ∧
    shadow_entry (set_entry shadow_levels 8 2 (-1)) 8 2 = Ok (-1) ∧
    ∃ v, palette_colors
           !! Z.to_nat (-1 mod Z.of_nat (length palette_colors)) = Some v ∧
         getpixel img (8, 2) = Ok (clip_rgb v).
Proof.
  assert (shadow_entry (set_entry shadow_levels 8 2 (-1)) 8 2 = Ok (-1))
    as Hentry by (vm_compute; reflexivity).
  destruct (build palette_colors (set_entry shadow_levels 8 2 (-1)))
    as [img|e] eqn:Himg; vm_compute in Himg; [|discriminate].
  exists img. split; [reflexivity|]. split; [exact Hentry|].
  exact (pixel_reads_palette_modulo palette_colors
           (set_entry shadow_levels 8 2 (-1)) img 8 2 (-1)
           ltac:(rewrite <- Himg; vm_compute; reflexivity)
           ltac:(lia) ltac:(lia) Hentry).
Defined.

(** X3.  On a palette of 8-bit channels the build raises the exception
    of the first lookup that fails, in the order of the nested loop: when
    the lookup of a pixel raises and the lookups of all the pixels the
    loop reaches before it succeed, the build raises that same exception,
    whatever is wrong further on. *)
Theorem build_raises_first_failure (palette : list rgb)
    (shadow : gmap Z (list Z)) (p s : Z) (e : exn) :
  Forall is_rgb8 palette →
  0 ≤ p < 32 → 0 ≤ s < 8 →
  shadow_rgb palette shadow p s = Raise e →
  (∀ q t, 0 ≤ q < 32 → 0 ≤ t < 8 → precedes (q, t) (p, s) →
          resolves palette shadow (q, t)) →
  build palette shadow = Raise e.
Proof.
  intros Hrgb Hp Hs Hraise Hbefore.
  destruct (build palette shadow) as [img|e'] eqn:Himg.
  - apply build_Ok in Himg as (_ & _ & _ & Hpx).
    destruct (Hpx p s Hp Hs) as (v & Hv & _). congruence.
  - apply build_Raise_first in Himg
      as (p' & s' & [Hp' Hs'] & Hraise' & Hbefore').
    rewrite shadow_ink_rgb8 in Hraise' by done.
    destruct (decide (precedes (p', s') (p, s))) as [Hlt|Hnlt].
    { destruct (Hbefore p' s' Hp' Hs' Hlt) as [v Hv].
      simpl in Hv. congruence. }
    destruct (decide (precedes (p, s) (p', s'))) as [Hgt|Hngt].
    { destruct (Hbefore' p s Hp Hs Hgt) as [ink Hink].
      simpl in Hink. rewrite shadow_ink_rgb8 in Hink by done. congruence. }
    assert (p' = p ∧ s' = s) as [-> ->].
    { unfold precedes in Hnlt, Hngt; simpl in *. lia. }
    congruence.
Qed.

Lemma build_raises_first_failure_witness :
  Forall is_rgb8 palette_colors ∧
  shadow_rgb palette_colors (delete 5 (set_entry shadow_levels 3 0 99)) 3 0
    = Raise IndexError ∧
  (delete 5 (set_entry shadow_levels 3 0 99)) !! 5 = None ∧
  build palette_colors (delete 5 (set_entry shadow_levels 3 0 99))
    = Raise IndexError.
Proof.
  assert (Forall is_rgb8 palette_colors) as Hrgb by by_evaluation.
  assert (shadow_rgb palette_colors
            (delete 5 (set_entry shadow_levels 3 0 99)) 3 0
          = Raise IndexError) as Hraise by (vm_compute; reflexivity).
  assert (Forall (λ xy, precedes xy (3, 0) →
                        resolves palette_colors
                          (delete 5 (set_entry shadow_levels 3 0 99)) xy)
            loop_order) as Hall by by_evaluation.
  split; [exact Hrgb|]. split; [exact Hraise|].
  split; [vm_compute; reflexivity|].
  refine (build_raises_first_failure palette_colors
            (delete 5 (set_entry shadow_levels 3 0 99)) 3 0 IndexError
            Hrgb ltac:(lia) ltac:(lia) Hraise _).
  intros q t Hq Ht Hprec.
  rewrite Forall_forall in Hall.
  apply (Hall (q, t)); [by apply elem_of_loop_order|exact Hprec].
Defined.



(** X5.  The loop reads the rows of the indices 0 to 31 and no other: a
    row stored under any other key changes nothing of what the script
    does. *)
Theorem extra_row_ignored (palette : list rgb) (shadow : gmap Z (list Z))
    (k : Z) (row : list Z) (w : World) :
  ¬ (0 ≤ k < 32) →
  create_palette_texture palette (<[k := row]> shadow) w =
  create_palette_texture palette shadow w.
Proof.
  intros Hk.
  assert (build palette (<[k := row]> shadow) = build palette shadow) as Hb.
  { apply build_ext. intros p s Hp Hs.
    unfold shadow_rgb, dict_getitem.
    rewrite lookup_insert_ne by (intros ->; lia). done. }
  unfold create_palette_texture. by rewrite Hb.
Qed.

Lemma extra_row_ignored_witness :
  ¬ (0 ≤ 32 < 32) ∧
  create_palette_texture palette_colors (<[32 := [99]]> shadow_levels)
    fresh_world =
  create_palette_texture palette_colors shadow_levels fresh_world.
Proof.
  assert (¬ (0 ≤ 32 < 32)) as Hk by lia.
  split; [exact Hk|].
  exact (extra_row_ignored palette_colors shadow_levels 32 [99]
           fresh_world Hk).
Defined.

(** X6.  The loop reads the levels 0 to 7 of a row and no other: what a
    row of eight or more entries holds after them changes nothing of what
    the script does. *)
Theorem row_tail_ignored (palette : list rgb) (shadow : gmap Z (list Z))
    (p : Z) (row tail : list Z) (w : World) :
  shadow !! p = Some row →
  (8 ≤ length row)%nat →
  create_palette_texture palette (<[p := row ++ tail]> shadow) w =
  create_palette_texture palette shadow w.
Proof.
  intros Hrow Hlen.
  assert (build palette (<[p := row ++ tail]> shadow) = build palette shadow)
    as Hb.
  { apply build_ext. intros q s Hq Hs.
    unfold shadow_rgb, dict_getitem.
    destruct (decide (p = q)) as [<-|Hne].
    - rewrite lookup_insert_eq, Hrow. simpl.
      rewrite !getitem_nonneg by lia.
      rewrite lookup_app_l by lia. done.
    - by rewrite lookup_insert_ne. }
  unfold create_palette_texture. by rewrite Hb.
Qed.

Lemma row_tail_ignored_witness :
  shadow_levels !! 8 = Some [8; 8; 24; 24; 2; 21; 1; 0] ∧
  le 8 (length [8; 8; 24; 24; 2; 21; 1; 0]) ∧
  create_palette_texture palette_colors
    (<[8 := [8; 8; 24; 24; 2; 21; 1; 0] ++ [77; -40]]> shadow_levels)
    used_world =
  create_palette_texture palette_colors shadow_levels used_world.
Proof.
  assert (shadow_levels !! 8 = Some [8; 8; 24; 24; 2; 21; 1; 0]) as Hrow
    by (vm_compute; reflexivity).
  assert (le 8 (length [8; 8; 24; 24; 2; 21; 1; 0])) as Hlen
    by (simpl; lia).
  split; [exact Hrow|]. split; [exact Hlen|].
  exact (row_tail_ignored palette_colors shadow_levels 8
           [8; 8; 24; 24; 2; 21; 1; 0] [77; -40] used_world Hrow Hlen).
Defined.

(** X7.  A run that succeeds leaves exactly this world: the built image
    stored at the output path, over whatever was there, every other file as
    it was, and the four lines of the confirmation printed, in the order of
    the script, after what had been printed before. *)
Theorem script_success_world (palette : list rgb)
    (shadow : gmap Z (list Z)) (w : World) :
  (create_palette_texture palette shadow w).1 = Ok tt →
  ∃ img,
    build palette shadow = Ok img ∧
    (create_palette_texture palette shadow w).2 =
    mkWorld (<[output_path := Complete img]> (files w)) (writable w)
      (stdout w ++
       ["Created palette shadow lookup texture: "
          +:+ "assets/palette_shadow_lookup.png";
        "Size: 32x8 pixels";
        "Each column represents a palette color (0-31)";
        "Each row represents a shadow level (0=brightest, 7=darkest)"])
      (opens w).
Proof.
  intros Hrun.
  destruct (build palette shadow) as [img|e] eqn:Himg.
  - destruct (writable w output_path) eqn:Hw.
    + exists img. split; [done|].
      by rewrite (create_palette_texture_Ok _ _ _ img).
    + by rewrite (create_palette_texture_unwritable _ _ _ img) in Hrun.
  - by rewrite (create_palette_texture_build_Raise _ _ _ e) in Hrun.
Qed.

Lemma script_success_world_witness :
  (main used_world).1 = Ok tt ∧
  ∃ img,
    build palette_colors shadow_levels = Ok img ∧
    (main used_world).2 =
    mkWorld (<[output_path := Complete img]> (files used_world))
      (writable used_world)
      (stdout used_world ++
       ["Created palette shadow lookup texture: "
          +:+ "assets/palette_shadow_lookup.png";
        "Size: 32x8 pixels";
        "Each column represents a palette color (0-31)";
        "Each row represents a shadow level (0=brightest, 7=darkest)"])
      (opens used_world).
Proof.
  assert ((main used_world).1 = Ok tt) as Hrun by (vm_compute; reflexivity).
  split; [exact Hrun|].
  exact (script_success_world palette_colors shadow_levels used_world Hrun).
Defined.

(** X8.  Where [img.save] cannot go through, the script never succeeds
    and never prints, whatever the tables, and it touches no file other
    than the output file.  If the build fails it ends with the exception
    of the build and the world as it was; if the build succeeds it ends
    with [OSError] and the output file cut off where the file could be
    opened, untouched where it could not. *)
Theorem unwritable_path_never_succeeds (palette : list rgb)
    (shadow : gmap Z (list Z)) (w : World) :
  writable w output_path = false →
  ∃ e,
    (create_palette_texture palette shadow w).1 = Raise e ∧
    stdout (create_palette_texture palette shadow w).2 = stdout w ∧
    (∀ path, path ≠ output_path →
       files (create_palette_texture palette shadow w).2 !! path =
       files w !! path) ∧
    match build palette shadow with
    | Raise e' =>
        e = e' ∧ (create_palette_texture palette shadow w).2 = w
    | Ok img =>
        e = OSError ∧
        files (create_palette_texture palette shadow w).2 !! output_path =
        if opens w output_path then Some Truncated
        else files w !! output_path
    end.
Proof.
  intros Hw.
  destruct (build palette shadow) as [img|e] eqn:Himg.
  - exists OSError. destruct (opens w output_path) eqn:Ho.
    + rewrite (create_palette_texture_truncates _ _ _ img) by done.
      cbn [fst snd files stdout]. repeat split; try done.
      * intros path Hne. by rewrite lookup_insert_ne.
      * by rewrite lookup_insert_eq.
    + rewrite (create_palette_texture_refused _ _ _ img) by done.
      repeat split; done.
  - exists e. rewrite (create_palette_texture_build_Raise _ _ _ e) by done.
    repeat split; done.
Qed.

Lemma unwritable_path_never_succeeds_witness :
  writable full_disk_world output_path = false ∧
  ∃ e,
    (main full_disk_world).1 = Raise e ∧
    stdout (main full_disk_world).2 = stdout full_disk_world ∧
    (∀ path, path ≠ output_path →
       files (main full_disk_world).2 !! path =
       files full_disk_world !! path) ∧
    match build palette_colors shadow_levels with
    | Raise e' => e = e' ∧ (main full_disk_world).2 = full_disk_world
    | Ok img =>
        e = OSError ∧
        files (main full_disk_world).2 !! output_path =
        if opens full_disk_world output_path then Some Truncated
        else files full_disk_world !! output_path
    end.
Proof.
  split; [reflexivity|].
  exact (unwritable_path_never_succeeds palette_colors shadow_levels
           full_disk_world eq_refl).
Defined.

(** X9.  Running the script again after a run that succeeded succeeds
    again, stores the same image over the one it stored, so that the files
    are as the first run left them, and prints the confirmation a second
    time. *)
Theorem second_run_same_files (palette : list rgb)
    (shadow : gmap Z (list Z)) (w : World) :
  (create_palette_texture palette shadow w).1 = Ok tt →
  (create_palette_texture palette shadow
     (create_palette_texture palette shadow w).2).1 = Ok tt ∧
  files (create_palette_texture palette shadow
           (create_palette_texture palette shadow w).2).2 =
  files (create_palette_texture palette shadow w).2 ∧
  stdout (create_palette_texture palette shadow
            (create_palette_texture palette shadow w).2).2 =
  stdout w ++ confirmation ++ confirmation.
Proof.
  intros Hrun.
  destruct (build palette shadow) as [img|e] eqn:Himg.
  2:{ by rewrite (create_palette_texture_build_Raise _ _ _ e) in Hrun. }
  destruct (writable w output_path) eqn:Hw.
  2:{ by rewrite (create_palette_texture_unwritable _ _ _ img) in Hrun. }
  rewrite (create_palette_texture_Ok _ _ w img) by done. cbn [snd].
  rewrite (create_palette_texture_Ok _ _ _ img) by done.
  cbn [fst snd files stdout]. split; [done|].
  split; [apply insert_insert_eq|by rewrite <- app_assoc].
Qed.

Lemma second_run_same_files_witness :
  (main fresh_world).1 = Ok tt ∧
  (main (main fresh_world).2).1 = Ok tt ∧
  files (main (main fresh_world).2).2 = files (main fresh_world).2 ∧
  stdout (main (main fresh_world).2).2 =
  stdout fresh_world ++ confirmation ++ confirmation.
Proof.
  assert ((main fresh_world).1 = Ok tt) as Hrun by (vm_compute; reflexivity).
  split; [exact Hrun|].
  exact (second_run_same_files palette_colors shadow_levels fresh_world Hrun).
Defined.

(** X10.  On a palette of 8-bit channels, a table that lacks the row of
    a colour [p] from 0 to 31 makes the script end with [KeyError], nothing
    saved and nothing printed, provided the lookups of the columns before
    [p] succeed. *)
Theorem missing_row_raises_KeyError (palette : list rgb)
    (shadow : gmap Z (list Z)) (p : Z) (w : World) :
  Forall is_rgb8 palette →
  0 ≤ p < 32 →
  shadow !! p = None →
  (∀ q t, 0 ≤ q < p → 0 ≤ t < 8 → resolves palette shadow (q, t)) →
  create_palette_texture palette shadow w = (Raise KeyError, w).
Proof.
  intros Hrgb Hp Hnone Hbefore.
  apply create_palette_texture_build_Raise.
  assert (∀ s, shadow_rgb palette shadow p s = Raise KeyError) as Hcol.
  { intros s. unfold shadow_rgb, dict_getitem. by rewrite Hnone. }
  destruct (build palette shadow) as [img|e] eqn:Himg.
  - apply build_Ok in Himg as (_ & _ & _ & Hpx).
    destruct (Hpx p 0) as (v & Hv & _); [done|lia|]. congruence.
  - apply build_Raise_first in Himg
      as (p' & s' & [Hp' Hs'] & Hraise & Hbefore').
    rewrite shadow_ink_rgb8 in Hraise by done.
    destruct (decide (p' < p)) as [Hlt|Hge].
    { destruct (Hbefore p' s') as [v Hv]; [lia|done|].
      simpl in Hv. congruence. }
    destruct (decide (p < p')) as [Hgt|Hle].
    { destruct (Hbefore' p 0) as [ink Hink]; [done|lia|by left|].
      simpl in Hink. rewrite shadow_ink_rgb8 in Hink by done. congruence. }
    assert (p' = p) as -> by lia. congruence.
Qed.

Lemma missing_row_raises_KeyError_witness :
  Forall is_rgb8 palette_colors ∧
  delete 5 shadow_levels !! 5 = None ∧
  create_palette_texture palette_colors (delete 5 shadow_levels) used_world
  = (Raise KeyError, used_world).
Proof.
  assert (Forall is_rgb8 palette_colors) as Hrgb by by_evaluation.
  assert (delete 5 shadow_levels !! 5 = None) as Hnone
    by (vm_compute; reflexivity).
  assert (Forall (λ xy, xy.1 < 5 →
                        resolves palette_colors (delete 5 shadow_levels) xy)
            loop_order) as Hall by by_evaluation.
  split; [exact Hrgb|]. split; [exact Hnone|].
  refine (missing_row_raises_KeyError palette_colors
            (delete 5 shadow_levels) 5 used_world Hrgb ltac:(lia) Hnone _).
  intros q t Hq Ht. rewrite Forall_forall in Hall.
  apply (Hall (q, t)); [|simpl; lia].
  apply elem_of_loop_order. unfold inside, width, height. simpl. lia.
Defined.
